(** * Shallow embedding of transcription-tool.py

    The batch job runner ([TranscriptionEngine.transcribe_batch]), the
    single-file invoker ([TranscriptionEngine.transcribe_file]), the parts of
    pathlib they use, and the GUI entry points that call them
    ([start_transcription], [transcription_worker], [load_files_from_folder]).

    Effects are modelled as follows.
    - The progress sink ([callback]) is a writer: every computation returns the
      list of lines it passed to the callback.  [cb = false] is [callback=None].
    - The external process is an oracle: [env idx] is what happens when the
      [idx]-th file of the batch (1-based, as [enumerate(file_list, 1)]) is
      handed to [transcribe_file].
    - The shared flag [self.is_running] is an oracle too: [running idx] is the
      value the loop check of iteration [idx] reads.  Only [stop] writes it
      during a run, and it writes [False]. *)

From Stdlib Require Import String Ascii List ZArith Bool Lia Permutation Sorted.
Import ListNotations.
Open Scope string_scope.
Open Scope list_scope.

(** ** String helpers (Python builtins) *)

Definition nl : string := String (ascii_of_nat 10) EmptyString.

(** ['c' * n] *)
Fixpoint repeat_str (n : nat) (s : string) : string :=
  match n with
  | O => ""
  | S k => s ++ repeat_str k s
  end.

(** [str(n)] for a non-negative int. *)
Fixpoint str_nat_aux (fuel n : nat) (acc : string) : string :=
  match fuel with
  | O => acc
  | S f =>
      let acc' := String (ascii_of_nat (48 + n mod 10)) acc in
      if Nat.ltb n 10 then acc' else str_nat_aux f (n / 10) acc'
  end.

Definition str_nat (n : nat) : string := str_nat_aux (S n) n "".

(** [' '.join(xs)] *)
Definition join (sep : string) (xs : list string) : string := String.concat sep xs.

(** Whitespace recognised by [str.rstrip()] (ASCII part). *)
Definition is_py_space (c : ascii) : bool :=
  let n := nat_of_ascii c in
  Nat.eqb n 32 || (Nat.leb 9 n && Nat.leb n 13) || (Nat.leb 28 n && Nat.leb n 31).

(** [s.rstrip()] *)
Definition rstrip (s : string) : string :=
  let fix drop (l : list ascii) :=
    match l with
    | [] => []
    | c :: r => if is_py_space c then drop r else l
    end in
  string_of_list_ascii (rev (drop (rev (list_ascii_of_string s)))).

(** [s.upper()] on ASCII. *)
Definition upper_char (c : ascii) : ascii :=
  let n := nat_of_ascii c in
  if Nat.leb 97 n && Nat.leb n 122 then ascii_of_nat (n - 32) else c.

Definition upper (s : string) : string :=
  string_of_list_ascii (map upper_char (list_ascii_of_string s)).

(** [s.endswith(t)] *)
Definition endswith (s t : string) : bool :=
  let n := String.length s in
  let m := String.length t in
  Nat.leb m n && String.eqb (substring (n - m) m s) t.

(** [s.rfind('.')] as an option (None for -1). *)
Definition rfind_dot (s : string) : option nat :=
  let fix go (l : list ascii) (i : nat) (last : option nat) :=
    match l with
    | [] => last
    | c :: r => go r (S i) (if Ascii.eqb c "."%char then Some i else last)
    end in
  go (list_ascii_of_string s) 0 None.

(** ** pathlib.PurePosixPath *)

Record path := mkPath { root : string; parts : list string }.

(** [s.split('/')]; [cur] holds the current segment reversed. *)
Fixpoint split_go (l : list ascii) (cur : list ascii) : list string :=
  match l with
  | [] => [string_of_list_ascii (rev cur)]
  | c :: r =>
      if Ascii.eqb c "/"%char
      then string_of_list_ascii (rev cur) :: split_go r []
      else split_go r (c :: cur)
  end.

Definition split_slash (s : string) : list string :=
  split_go (list_ascii_of_string s) [].

(** [Path(s)]: the root is ["//"] for exactly two leading slashes, ["/"] for
    one or three or more, [""] otherwise; empty and ["."] components are
    dropped. *)
Definition parse_path (s : string) : path :=
  let r := if String.prefix "//" s && negb (String.prefix "///" s) then "//"
           else if String.prefix "/" s then "/" else "" in
  mkPath r (filter (fun c => negb (String.eqb c "") && negb (String.eqb c "."))
                   (split_slash s)).

(** [str(p)] *)
Definition path_str (p : path) : string :=
  match root p, parts p with
  | "", [] => "."
  | r, ps => r ++ join "/" ps
  end.

(** [p / s] *)
Definition path_div (p : path) (s : string) : path :=
  let q := parse_path s in
  if String.eqb (root q) "" then mkPath (root p) (parts p ++ parts q) else q.

(** [p.name] *)
Definition name (p : path) : string := last (parts p) "".

(** [p.stem] *)
Definition stem (p : path) : string :=
  let n := name p in
  match rfind_dot n with
  | Some i => if Nat.ltb 0 i && Nat.ltb i (String.length n - 1) then substring 0 i n else n
  | None => n
  end.

(** ** The progress sink as a writer *)

Definition W (A : Type) : Type := (list string * A)%type.

Definition ret {A} (a : A) : W A := ([], a).

Definition bind {A B} (m : W A) (f : A -> W B) : W B :=
  let (l1, a) := m in
  let (l2, b) := f a in
  (l1 ++ l2, b).

Notation "x <- m ;; k" := (bind m (fun x => k))
  (at level 61, m at next level, right associativity).
Notation "m ;;; k" := (bind m (fun _ => k))
  (at level 61, right associativity).

(** [if callback: callback(s)] *)
Definition emit (cb : bool) (s : string) : W unit :=
  if cb then ([s], tt) else ([], tt).

(** ** TranscriptionEngine *)

Record engine := mkEngine { model : string; language : string }.

(** What the outside world does for one call of [transcribe_file]:
    - [MkdirFails msg]: [output_dir.mkdir(...)] raises, [str(e) = msg];
    - [LaunchFails msg]: [subprocess.Popen(cmd, ...)] raises;
    - [ReadFails lines msg]: the process prints [lines], then a
      [readline] call raises;
    - [Exits lines code]: the process prints [lines] (each as returned by
      [readline], which returns [''] only at end of stream, so the lines of
      the list are the ones read before the sentinel) and
      [process.returncode] is [code] after [process.wait()]. *)
Inductive outcome :=
| MkdirFails (msg : string)
| LaunchFails (msg : string)
| ReadFails (lines : list string) (msg : string)
| Exits (lines : list string) (code : Z).

(** [for line in iter(process.stdout.readline, ''): if line: callback(line.rstrip())] *)
Fixpoint forward_lines (cb : bool) (lines : list string) : W unit :=
  match lines with
  | [] => ret tt
  | l :: ls =>
      (if String.eqb l "" then ret tt else emit cb (rstrip l)) ;;;
      forward_lines cb ls
  end.

(** The argument list [cmd]. *)
Definition whisper_cmd (e : engine) (fp od : path) (output_format : string)
  : list string :=
  ["whisper"; path_str fp; "--model"; model e; "--language"; language e;
   "--task"; "transcribe"; "--output_format"; output_format;
   "--output_dir"; path_str od].

Definition processing_line (fp : path) : string :=
  nl ++ repeat_str 80 "=" ++ nl ++ "📍 Processing: " ++ name fp ++ nl
     ++ repeat_str 80 "=".

Definition cmd_line (cmd : list string) : string :=
  nl ++ "$ " ++ join " " cmd ++ nl.

Definition success_line (fp : path) : string := nl ++ "✅ SUCCESS: " ++ name fp.

Definition output_line (of : path) : string := "📄 Output: " ++ name of ++ nl.

Definition failed_line (fp : path) : string := nl ++ "❌ FAILED: " ++ name fp ++ nl.

Definition error_line (fp : path) (msg : string) : string :=
  nl ++ "❌ ERROR in " ++ name fp ++ ": " ++ msg ++ nl.

(** The exception handler: [callback(...ERROR...)]; [return False, str(e)]. *)
Definition on_exception (cb : bool) (fp : path) (msg : string) : W (bool * string) :=
  emit cb (error_line fp msg) ;;; ret (false, msg).

(** [TranscriptionEngine.transcribe_file] *)
Definition transcribe_file (e : engine) (file_path output_dir output_format : string)
  (cb : bool) (o : outcome) : W (bool * string) :=
  let fp := parse_path file_path in
  let od := parse_path output_dir in
  match o with
  | MkdirFails msg => on_exception cb fp msg
  | _ =>
      emit cb (processing_line fp) ;;;
      let cmd := whisper_cmd e fp od output_format in
      emit cb (cmd_line cmd) ;;;
      match o with
      | MkdirFails msg | LaunchFails msg => on_exception cb fp msg
      | ReadFails lines msg => forward_lines cb lines ;;; on_exception cb fp msg
      | Exits lines code =>
          forward_lines cb lines ;;;
          if Z.eqb code 0 then
            let output_file := path_div od (stem fp ++ "." ++ output_format) in
            emit cb (success_line fp) ;;;
            emit cb (output_line output_file) ;;;
            ret (true, path_str output_file)
          else
            emit cb (failed_line fp) ;;;
            ret (false, "Transcription failed")
      end
  end.

(** One entry of [results]: [{'file': ..., 'success': ..., 'result': ...}]. *)
Record job_result := mkResult { file : string; success : bool; result : string }.

(** How the [for] loop of [transcribe_batch] is left: by [break] after the
    flag check failed, or by running out of files. *)
Inductive loop_exit := Stopped | Completed.

Definition batch_header (idx total : nat) (file_path : string) : string :=
  nl ++ repeat_str 80 "#" ++ nl ++ "[" ++ str_nat idx ++ "/" ++ str_nat total
     ++ "] Processing: " ++ name (parse_path file_path) ++ nl ++ repeat_str 80 "#".

Definition stopped_line : string := nl ++ "⏹️  STOPPED by user" ++ nl.

Section Batch.

Variable e : engine.
(** [running idx]: value of [self.is_running] read by iteration [idx]. *)
Variable running : nat -> bool.
(** [env idx]: behaviour of the external tool on the [idx]-th file. *)
Variable env : nat -> outcome.
Variables (output_dir output_format : string) (cb : bool) (total : nat).

(** The loop [for idx, file_path in enumerate(file_list, 1)], from index [idx]. *)
Fixpoint batch_loop (idx : nat) (files : list string) : W (list job_result * loop_exit) :=
  match files with
  | [] => ret ([], Completed)
  | file_path :: rest =>
      if negb (running idx) then
        emit cb stopped_line ;;; ret ([], Stopped)
      else
        emit cb (batch_header idx total file_path) ;;;
        r <- transcribe_file e file_path output_dir output_format cb (env idx) ;;
        k <- batch_loop (S idx) rest ;;
        ret (mkResult file_path (fst r) (snd r) :: fst k, snd k)
  end.

End Batch.

(** [TranscriptionEngine.transcribe_batch]; the Python function returns the
    first component of the result, the second records how the loop ended. *)
Definition transcribe_batch (e : engine) (running : nat -> bool) (env : nat -> outcome)
  (file_list : list string) (output_dir output_format : string) (cb : bool)
  : W (list job_result * loop_exit) :=
  batch_loop e running env output_dir output_format cb (length file_list) 1 file_list.

(** ** TranscriptionGUI *)

(** Message boxes shown to the user. *)
Inductive ui_effect :=
| ShowWarning (title msg : string)
| ShowInfo (title msg : string)
| ShowError (title msg : string).

(** The parts of the GUI object the claims need: [selected_files],
    [is_transcribing], the lines of the log widget, the status label and
    whether the worker thread has been started. *)
Record gui := mkGui {
  selected_files : list string;
  is_transcribing : bool;
  log_text : list string;
  status_text : string;
  worker_started : bool }.

Definition set_selected (g : gui) (fs : list string) : gui :=
  mkGui fs (is_transcribing g) (log_text g) (status_text g) (worker_started g).

(** [self.log(message)] *)
Definition log (g : gui) (m : string) : gui :=
  mkGui (selected_files g) (is_transcribing g) (log_text g ++ [m]) (status_text g)
        (worker_started g).

Definition log_all (g : gui) (ms : list string) : gui := fold_left log ms g.

(** Settings read from the widgets when a run starts. *)
Record settings := mkSettings {
  model_var : string; language_var : string; format_var : string;
  output_directory : string }.

(** [TranscriptionGUI.start_transcription]: the guard on an empty selection,
    then the button states, the cleared log, the banner and the worker. *)
Definition start_transcription (g : gui) (st : settings) : list ui_effect * gui :=
  match selected_files g with
  | [] => ([ShowWarning "No Files" "Please select at least one file to transcribe."], g)
  | fs =>
      let g1 := mkGui fs true [] "⏳ Processing..." false in
      let g2 := log_all g1
        [repeat_str 90 "=";
         "🚀 STARTING TRANSCRIPTION";
         repeat_str 90 "=";
         ("📊 Files: " ++ str_nat (length fs) ++ " | Model: " ++ model_var st
           ++ " | Language: " ++ language_var st)%string;
         ("📄 Format: " ++ format_var st ++ " | Output: "
           ++ name (parse_path (output_directory st)))%string;
         (repeat_str 90 "=" ++ nl)%string] in
      ([], mkGui (selected_files g2) (is_transcribing g2) (log_text g2)
                 (status_text g2) true)
  end.

(** [sum(1 for r in results if r['success'])] *)
Definition success_count (results : list job_result) : nat :=
  length (filter success results).

(** The summary lines [transcription_worker] logs after the batch. *)
Definition summary_lines (results : list job_result) : list string :=
  [(nl ++ repeat_str 90 "=")%string;
   ("✅ COMPLETE: " ++ str_nat (success_count results) ++ "/"
     ++ str_nat (length results) ++ " successful")%string;
   (repeat_str 90 "=" ++ nl)%string].

(** [TranscriptionGUI.transcription_worker]: the batch with
    [callback=self.update_progress] (every sink line goes to the log), the
    summary, the status label and message box, and the [finally] block.  The
    modelled batch raises no exception, so the [except] branch is not taken. *)
Definition transcription_worker (g : gui) (st : settings) (running : nat -> bool)
  (env : nat -> outcome) : list ui_effect * gui :=
  let e := mkEngine (model_var st) (language_var st) in
  let (lines, r) := transcribe_batch e running env (selected_files g)
                      (output_directory st) (format_var st) true in
  let results := fst r in
  let sc := success_count results in
  let tc := length results in
  let g1 := log_all (log_all g lines) (summary_lines results) in
  let '(status, eff) :=
    if Nat.eqb sc tc then
      ("✅ All files transcribed!",
       ShowInfo "Success" ("All " ++ str_nat sc ++ " file(s) transcribed!" ++ nl ++ nl
                           ++ "Output: " ++ path_str (parse_path (output_directory st))))
    else
      (("⚠️  " ++ str_nat sc ++ "/" ++ str_nat tc ++ " successful")%string,
       ShowWarning "Partial Success" (str_nat sc ++ "/" ++ str_nat tc
                           ++ " files completed." ++ nl ++ "Check log for errors.")) in
  ([eff], mkGui (selected_files g1) false (log_text g1) status (worker_started g1)).

(** [TranscriptionConfig.SUPPORTED_FORMATS['All']] *)
Definition supported_all : list string :=
  [".ts"; ".mp4"; ".mkv"; ".avi"; ".mov"; ".flv"; ".wmv"; ".webm";
   ".mp3"; ".wav"; ".m4a"; ".aac"; ".flac"; ".ogg"; ".wma"].

(** [folder_path.glob("*" + ext)] on POSIX: the entries (in directory order)
    whose name ends with [ext], compared case-sensitively. *)
Definition glob_ext (folder : path) (entries : list string) (ext : string) : list path :=
  map (path_div folder) (filter (fun n => endswith n ext) entries).

(** [set(...)] followed by [sorted(...)]: duplicates removed, then sorted by
    code point (byte order on UTF-8). *)
Fixpoint dedup (l : list string) : list string :=
  match l with
  | [] => []
  | x :: r => if existsb (String.eqb x) r then dedup r else x :: dedup r
  end.

Fixpoint insert_sorted (x : string) (l : list string) : list string :=
  match l with
  | [] => [x]
  | y :: r => if String.leb x y then x :: l else y :: insert_sorted x r
  end.

Definition sort_strings (l : list string) : list string := fold_right insert_sorted [] l.

Definition append_new (sel : list string) (f : string) : list string :=
  if existsb (String.eqb f) sel then sel else sel ++ [f].

(** [TranscriptionGUI.load_files_from_folder]; [entries] are the names in the
    folder.  Returns the message boxes, the new GUI state and the local
    [files] list. *)
Definition load_files_from_folder (g : gui) (folder : string) (entries : list string)
  : list ui_effect * gui * list string :=
  let folder_path := parse_path folder in
  let files := flat_map (fun ext => glob_ext folder_path entries ext
                                   ++ glob_ext folder_path entries (upper ext))
                        supported_all in
  match files with
  | [] => ([ShowWarning "No Files" ("No media files found in:" ++ nl ++ path_str folder_path)],
           g, [])
  | _ =>
      let files' := sort_strings (dedup (map path_str files)) in
      let g1 := set_selected g (fold_left append_new files' (selected_files g)) in
      ([], log g1 ("✅ Loaded " ++ str_nat (length files') ++ " file(s) from '"
                   ++ name folder_path ++ "'"), files')
  end.

(** ** Auxiliary definitions used by the statements *)

(** The job record the loop appends for the [i]-th file. *)
Definition job_of e env od fmt cb (i : nat) (f : string) : job_result :=
  let r := snd (transcribe_file e f od fmt cb (env i)) in mkResult f (fst r) (snd r).

(** ['/' in s] *)
Definition has_slash (s : string) : bool :=
  existsb (Ascii.eqb "/"%char) (list_ascii_of_string s).

(** A single path component: not empty, not ["."], without ['/']. *)
Definition component_ok (c : string) : bool :=
  negb (String.eqb c "") && negb (String.eqb c ".") && negb (has_slash c).

(** The message of the exception [transcribe_file] catches, if any. *)
Definition raised_msg (o : outcome) : option string :=
  match o with
  | MkdirFails msg | LaunchFails msg | ReadFails _ msg => Some msg
  | Exits _ _ => None
  end.

(** The lines the external process printed. *)
Definition stream_lines (o : outcome) : list string :=
  match o with
  | ReadFails ls _ | Exits ls _ => ls
  | _ => []
  end.

(** The start of the summary line of [transcription_worker]. *)
Definition summary_prefix : string := "✅ COMPLETE: ".

(** The three-file example of the spec: the 2nd file exits with [c <> 0]. *)
Definition example_gui : gui :=
  mkGui ["/in/a.mp4"; "/in/b.mp4"; "/in/c.mp4"] true [] "⏳ Processing..." true.

Definition example_settings : settings := mkSettings "small" "en" "txt" "/out".

Definition example_env (c : Z) (i : nat) : outcome :=
  if Nat.eqb i 2 then Exits [] c else Exits [] 0.

(** The order [sorted] puts strings in. *)
Definition str_le (a b : string) : Prop := String.leb a b = true.

(** Case-insensitive extension test, after the spec's "listing by extension
    (case-insensitive)"; the code does not use it. *)
Definition endswith_ci (n ext : string) : bool := endswith (upper n) (upper ext).

(** ** The other GUI operations on the selection and the run *)

(** [TranscriptionGUI.select_files]: [files] is what
    [filedialog.askopenfilenames] returned (empty when cancelled); each file
    not yet in [self.selected_files] is appended, checking against the list
    as it grows.  [update_file_list] only redraws widgets. *)
Definition select_files (g : gui) (files : list string) : gui :=
  match files with
  | [] => g
  | _ => set_selected g (fold_left append_new files (selected_files g))
  end.

(** [TranscriptionGUI.remove_selected_file]: [selection] is
    [self.file_listbox.curselection()]; [del self.selected_files[idx]] raises
    [IndexError] (here [None]) when [idx] is out of range. *)
Definition remove_selected_file (g : gui) (selection : list nat) : option gui :=
  match selection with
  | [] => Some g
  | idx :: _ =>
      let sel := selected_files g in
      if Nat.ltb idx (length sel)
      then Some (set_selected g (firstn idx sel ++ skipn (S idx) sel))
      else None
  end.

(** [TranscriptionGUI.clear_selection] *)
Definition clear_selection (g : gui) : gui :=
  log (set_selected g []) "🗑️  All files cleared".

Definition set_status (g : gui) (t : string) : gui :=
  mkGui (selected_files g) (is_transcribing g) (log_text g) t (worker_started g).

(** [TranscriptionGUI.stop_transcription]; [eng] is [self.engine]: [None], or
    an engine whose [is_running] is the boolean.  An engine object is always
    truthy, so the guard is [self.engine is not None and self.is_transcribing];
    [engine.stop()] sets [is_running = False]. *)
Definition stop_transcription (g : gui) (eng : option bool) : option bool * gui :=
  match eng with
  | Some _ =>
      if is_transcribing g then (Some false, set_status g "⏹️  Stopped by user")
      else (eng, g)
  | None => (None, g)
  end.

(** The GUI actions that read or change [self.selected_files]. *)
Inductive gui_op :=
| OpSelectFiles (files : list string)
| OpLoadFolder (folder : string) (entries : list string)
| OpRemove (selection : list nat)
| OpClear
| OpStart (st : settings)
| OpWorker (st : settings) (running : nat -> bool) (env : nat -> outcome).

(** One action; [None] when it raises. *)
Definition gui_step (g : gui) (op : gui_op) : option gui :=
  match op with
  | OpSelectFiles files => Some (select_files g files)
  | OpLoadFolder folder entries => Some (snd (fst (load_files_from_folder g folder entries)))
  | OpRemove selection => remove_selected_file g selection
  | OpClear => Some (clear_selection g)
  | OpStart st => Some (snd (start_transcription g st))
  | OpWorker st running env => Some (snd (transcription_worker g st running env))
  end.

Fixpoint gui_run (g : gui) (ops : list gui_op) : option gui :=
  match ops with
  | [] => Some g
  | op :: rest => match gui_step g op with Some g' => gui_run g' rest | None => None end
  end.

(** * Proofs *)

Open Scope nat_scope.

(** ** The writer *)

Lemma snd_bind {A B} (m : W A) (f : A -> W B) : snd (bind m f) = snd (f (snd m)).
Proof. destruct m as [l a]; simpl; destruct (f a); reflexivity. Qed.

Lemma fst_bind {A B} (m : W A) (f : A -> W B) :
  fst (bind m f) = fst m ++ fst (f (snd m)).
Proof. destruct m as [l a]; simpl; destruct (f a); reflexivity. Qed.

Lemma snd_emit cb s : snd (emit cb s) = tt.
Proof. destruct cb; reflexivity. Qed.

Lemma snd_forward_lines cb lines : snd (forward_lines cb lines) = tt.
Proof.
  induction lines as [|l ls IH]; [reflexivity|].
  simpl forward_lines; rewrite snd_bind; exact IH.
Qed.

Ltac wsnd := repeat (rewrite snd_bind; cbv beta).

(** ** Results of [transcribe_file] *)

Lemma transcribe_file_result e f od fmt cb o :
  snd (transcribe_file e f od fmt cb o) =
  match o with
  | MkdirFails msg | LaunchFails msg | ReadFails _ msg => (false, msg)
  | Exits _ code =>
      if Z.eqb code 0
      then (true, path_str (path_div (parse_path od) (stem (parse_path f) ++ "." ++ fmt)))
      else (false, "Transcription failed")
  end.
Proof.
  destruct o as [msg|msg|ls msg|ls code]; unfold transcribe_file, on_exception;
    wsnd; try reflexivity.
  destruct (Z.eqb code 0); wsnd; reflexivity.
Qed.

(** ** The batch loop *)

Section LoopFacts.

Variables (e : engine) (od fmt : string) (cb : bool) (total : nat).

Lemma batch_loop_cons_stop running env idx f rest :
  running idx = false ->
  batch_loop e running env od fmt cb total idx (f :: rest) =
  (emit cb stopped_line ;;; ret ([], Stopped)).
Proof. intro H; simpl; rewrite H; reflexivity. Qed.

Lemma batch_loop_cons_go running env idx f rest :
  running idx = true ->
  batch_loop e running env od fmt cb total idx (f :: rest) =
  (emit cb (batch_header idx total f) ;;;
   r <- transcribe_file e f od fmt cb (env idx) ;;
   k <- batch_loop e running env od fmt cb total (S idx) rest ;;
   ret (mkResult f (fst r) (snd r) :: fst k, snd k)).
Proof. intro H; simpl; rewrite H; reflexivity. Qed.

Lemma snd_batch_loop_go running env idx f rest :
  running idx = true ->
  snd (batch_loop e running env od fmt cb total idx (f :: rest)) =
  (job_of e env od fmt cb idx f
     :: fst (snd (batch_loop e running env od fmt cb total (S idx) rest)),
   snd (snd (batch_loop e running env od fmt cb total (S idx) rest))).
Proof. intro H; rewrite batch_loop_cons_go by exact H; wsnd; reflexivity. Qed.

Lemma snd_batch_loop_stop running env idx f rest :
  running idx = false ->
  snd (batch_loop e running env od fmt cb total idx (f :: rest)) = ([], Stopped).
Proof. intro H; rewrite batch_loop_cons_stop by exact H; wsnd; reflexivity. Qed.

(** Shape of the returned results: a prefix of the files, one job each, cut
    exactly where the flag check first fails. *)
Lemma batch_loop_shape running env idx files :
  let out := snd (batch_loop e running env od fmt cb total idx files) in
  let n := length (fst out) in
  n <= length files /\
  (forall j, j < n -> running (idx + j) = true) /\
  (n < length files -> running (idx + n) = false) /\
  snd out = (if Nat.ltb n (length files) then Stopped else Completed) /\
  (forall j, j < n ->
     nth_error (fst out) j = option_map (job_of e env od fmt cb (idx + j)) (nth_error files j)).
Proof.
  revert idx; induction files as [|f rest IH]; intro idx; cbn zeta.
  - simpl; repeat split; intros; simpl in *; lia.
  - destruct (running idx) eqn:Hr.
    + rewrite snd_batch_loop_go by exact Hr; simpl fst; simpl snd.
      destruct (IH (S idx)) as (H1 & H2 & H3 & H4 & H5); cbn zeta in *.
      set (n := length (fst (snd (batch_loop e running env od fmt cb total (S idx) rest)))) in *.
      simpl length; fold n.
      repeat split.
      * lia.
      * intros [|j] Hj; [rewrite Nat.add_0_r; exact Hr|].
        rewrite <- Nat.add_succ_comm; apply H2; lia.
      * intro Hlt; rewrite <- Nat.add_succ_comm; apply H3; lia.
      * rewrite H4; destruct (Nat.ltb n (length rest)) eqn:E1;
          destruct (Nat.ltb (S n) (S (length rest))) eqn:E2; try reflexivity;
          apply Nat.ltb_lt in E1 || apply Nat.ltb_ge in E1;
          apply Nat.ltb_lt in E2 || apply Nat.ltb_ge in E2; lia.
      * intros [|j] Hj; simpl; [rewrite Nat.add_0_r; reflexivity|].
        rewrite <- Nat.add_succ_comm; apply H5; lia.
    + rewrite snd_batch_loop_stop by exact Hr; simpl.
      repeat split; intros; try lia.
      rewrite Nat.add_0_r; exact Hr.
Qed.

End LoopFacts.

(** The loop only consults the external tool for the files it starts. *)
Lemma batch_loop_env_ext e running env env' od fmt cb total idx files :
  (forall j, j < length (fst (snd (batch_loop e running env od fmt cb total idx files))) ->
     forall f, transcribe_file e f od fmt cb (env' (idx + j))
             = transcribe_file e f od fmt cb (env (idx + j))) ->
  batch_loop e running env' od fmt cb total idx files
  = batch_loop e running env od fmt cb total idx files.
Proof.
  revert idx; induction files as [|f rest IH]; intros idx H; [reflexivity|].
  destruct (running idx) eqn:Hr.
  - rewrite !batch_loop_cons_go by exact Hr.
    rewrite snd_batch_loop_go in H by exact Hr; simpl in H.
    pose proof (H 0 ltac:(lia) f) as H0; rewrite Nat.add_0_r in H0; rewrite H0.
    rewrite IH; [reflexivity|].
    intros j Hj g; rewrite Nat.add_succ_comm; apply (H (S j)); lia.
  - rewrite !batch_loop_cons_stop by exact Hr; reflexivity.
Qed.

(** The loop only reads the flag at the iterations of its files. *)
Lemma batch_loop_running_ext e running running' env od fmt cb total idx files :
  (forall j, j < length files -> running' (idx + j) = running (idx + j)) ->
  batch_loop e running' env od fmt cb total idx files
  = batch_loop e running env od fmt cb total idx files.
Proof.
  revert idx; induction files as [|f rest IH]; intros idx H; [reflexivity|].
  assert (H0 : running' idx = running idx) by (rewrite <- (Nat.add_0_r idx); apply H; simpl; lia).
  simpl batch_loop; rewrite H0.
  rewrite IH; [reflexivity|].
  intros j Hj; rewrite Nat.add_succ_comm; apply H; simpl; lia.
Qed.

(** The sink lines of the loop, with [callback] present: per started file its
    header and then the lines of [transcribe_file], in file order; then the
    stop notice if the loop was left by [break]. *)
Lemma fst_batch_loop e running env od fmt total idx files :
  let out := batch_loop e running env od fmt true total idx files in
  let n := length (fst (snd out)) in
  fst out =
  flat_map (fun p => batch_header (fst p) total (snd p)
                      :: fst (transcribe_file e (snd p) od fmt true (env (fst p))))
           (combine (seq idx n) (firstn n files))
  ++ (if Nat.ltb n (length files) then [stopped_line] else []).
Proof.
  revert idx; induction files as [|f rest IH]; intro idx; cbn zeta; [reflexivity|].
  destruct (running idx) eqn:Hr.
  - rewrite snd_batch_loop_go by exact Hr.
    rewrite batch_loop_cons_go by exact Hr.
    repeat (first [rewrite fst_bind | rewrite snd_bind]; cbv beta).
    rewrite (IH (S idx)); simpl fst; simpl length.
    simpl; rewrite app_nil_r, <- app_assoc; reflexivity.
  - rewrite snd_batch_loop_stop by exact Hr.
    rewrite batch_loop_cons_stop by exact Hr; reflexivity.
Qed.

Lemma file_job_of e env od fmt cb i f : file (job_of e env od fmt cb i f) = f.
Proof. reflexivity. Qed.

(** ** Claims *)

(** C1: the results of [transcribe_batch] follow the input list: the [i]-th
    result's [file] field is the [i]-th input path, there are at most as many
    results as inputs, and fewer only when the flag check of the first file
    that was not started read [is_running = False]. *)
Theorem transcribe_batch_order_and_length e running env files od fmt cb :
  let rs := fst (snd (transcribe_batch e running env files od fmt cb)) in
  length rs <= length files /\
  (forall i, i < length rs -> option_map file (nth_error rs i) = nth_error files i) /\
  (length rs < length files -> running (S (length rs)) = false).
Proof.
  unfold transcribe_batch; cbn zeta.
  destruct (batch_loop_shape e od fmt cb (length files) running env 1 files)
    as (H1 & _ & H3 & _ & H5); cbn zeta in *.
  repeat split.
  - exact H1.
  - intros i Hi; rewrite (H5 i Hi).
    destruct (nth_error files i); reflexivity.
  - exact H3.
Qed.

(** C2: cancellation acts at file boundaries.  If [is_running] reads
    [False] at the check of iteration [k] (which is what [stop()] before that
    check gives, since nothing sets the flag back during a run), then fewer
    than [k] files are started, the results are exactly the jobs of the
    iterations whose check passed, the external tool is never consulted for
    an index [>= k], and the loop ends by [break] (Stopped) with a normal
    return.  In particular a stop between the 1st and the 2nd of at least two
    files leaves one result and the Stopped exit. *)
Theorem cancellation_at_file_boundary :
  (forall e running env files od fmt cb k,
     1 <= k -> k <= length files -> running k = false ->
     let out := snd (transcribe_batch e running env files od fmt cb) in
     let m := length (fst out) in
     m < k /\
     (forall j, 1 <= j <= m -> running j = true) /\
     running (S m) = false /\
     (forall i, i < m ->
        nth_error (fst out) i = option_map (job_of e env od fmt cb (S i)) (nth_error files i)) /\
     (forall env', (forall i, i < k -> env' i = env i) ->
        transcribe_batch e running env' files od fmt cb
        = transcribe_batch e running env files od fmt cb) /\
     snd out = Stopped) /\
  (forall e running env files od fmt cb,
     2 <= length files -> running 1 = true -> running 2 = false ->
     let out := snd (transcribe_batch e running env files od fmt cb) in
     length (fst out) = 1 /\ snd out = Stopped).
Proof.
  assert (Hgen : forall e running env files od fmt cb k,
     1 <= k -> k <= length files -> running k = false ->
     let out := snd (transcribe_batch e running env files od fmt cb) in
     let m := length (fst out) in
     m < k /\
     (forall j, 1 <= j <= m -> running j = true) /\
     running (S m) = false /\
     (forall i, i < m ->
        nth_error (fst out) i = option_map (job_of e env od fmt cb (S i)) (nth_error files i)) /\
     (forall env', (forall i, i < k -> env' i = env i) ->
        transcribe_batch e running env' files od fmt cb
        = transcribe_batch e running env files od fmt cb) /\
     snd out = Stopped).
  { intros e running env files od fmt cb k Hk1 Hk2 Hk; unfold transcribe_batch; cbn zeta.
    destruct (batch_loop_shape e od fmt cb (length files) running env 1 files)
      as (H1 & H2 & H3 & H4 & H5); cbn zeta in *.
    set (m := length (fst (snd (batch_loop e running env od fmt cb (length files) 1 files)))) in *.
    assert (Hm : m < k).
    { destruct (Nat.lt_ge_cases m k) as [Hlt|Hge]; [exact Hlt|].
      specialize (H2 (k - 1) ltac:(lia)).
      replace (1 + (k - 1)) with k in H2 by lia; congruence. }
    repeat split.
    - exact Hm.
    - intros j Hj; replace j with (1 + (j - 1)) by lia; apply H2; lia.
    - apply H3; lia.
    - exact H5.
    - intros env' Henv; apply batch_loop_env_ext.
      intros j Hj f; fold m in Hj; rewrite Henv by lia; reflexivity.
    - rewrite H4; replace (Nat.ltb m (length files)) with true; [reflexivity|].
      symmetry; apply Nat.ltb_lt; lia. }
  split; [exact Hgen|].
  intros e running env files od fmt cb Hlen H1 H2; cbn zeta.
  destruct (Hgen e running env files od fmt cb 2 ltac:(lia) Hlen H2)
    as (Hm & Hrun & Hstop & _ & _ & Hex); cbn zeta in *.
  split; [|exact Hex].
  destruct (length (fst (snd (transcribe_batch e running env files od fmt cb)))) as [|[|m]] eqn:E.
  - simpl in Hstop; congruence.
  - reflexivity.
  - lia.
Qed.

(** ** pathlib on clean components *)

Lemma string_app_assoc (a b c : string) : ((a ++ b) ++ c)%string = (a ++ (b ++ c))%string.
Proof. induction a as [|x a IH]; simpl; [reflexivity|now rewrite IH]. Qed.

Lemma list_ascii_app (a b : string) :
  list_ascii_of_string (a ++ b) = list_ascii_of_string a ++ list_ascii_of_string b.
Proof. induction a as [|x a IH]; simpl; [reflexivity|now rewrite IH]. Qed.

Lemma split_go_noslash l cur :
  existsb (Ascii.eqb "/"%char) l = false ->
  split_go l cur = [string_of_list_ascii (rev cur ++ l)].
Proof.
  revert cur; induction l as [|c l IH]; intros cur H; cbn [split_go].
  - now rewrite app_nil_r.
  - cbn [existsb] in H; apply orb_false_iff in H as [Hc Hl].
    rewrite Ascii.eqb_sym, Hc, IH by exact Hl; cbn [rev]; now rewrite <- app_assoc.
Qed.

Lemma split_go_slash l1 l2 cur :
  existsb (Ascii.eqb "/"%char) l1 = false ->
  split_go (l1 ++ "/"%char :: l2) cur = string_of_list_ascii (rev cur ++ l1) :: split_go l2 [].
Proof.
  revert cur; induction l1 as [|c l IH]; intros cur H; cbn [split_go app].
  - now rewrite app_nil_r.
  - cbn [existsb] in H; apply orb_false_iff in H as [Hc Hl].
    rewrite Ascii.eqb_sym, Hc, IH by exact Hl; cbn [rev]; now rewrite <- app_assoc.
Qed.

Lemma split_slash_join ps :
  ps <> [] -> Forall (fun c => has_slash c = false) ps ->
  split_slash (join "/" ps) = ps.
Proof.
  unfold split_slash, join; induction ps as [|c ps IH]; intros Hne Hall; [congruence|].
  inversion Hall as [|? ? Hc Hps]; subst.
  destruct ps as [|c' ps].
  - simpl String.concat; rewrite split_go_noslash by exact Hc; simpl.
    now rewrite string_of_list_ascii_of_string.
  - change (String.concat "/" (c :: c' :: ps)) with (c ++ "/" ++ String.concat "/" (c' :: ps))%string.
    rewrite list_ascii_app; cbn [String.append list_ascii_of_string].
    rewrite split_go_slash by exact Hc; cbn [rev app].
    rewrite string_of_list_ascii_of_string, IH by (easy || exact Hps); reflexivity.
Qed.

Lemma join_snoc ps n : ps <> [] -> join "/" (ps ++ [n]) = (join "/" ps ++ "/" ++ n)%string.
Proof.
  unfold join; induction ps as [|c ps IH]; intro Hne; [congruence|].
  destruct ps as [|c' ps]; [reflexivity|].
  specialize (IH ltac:(discriminate)).
  transitivity (c ++ "/" ++ String.concat "/" ((c' :: ps) ++ [n]))%string; [reflexivity|].
  rewrite IH.
  change (String.concat "/" (c :: c' :: ps)) with (c ++ "/" ++ String.concat "/" (c' :: ps))%string.
  rewrite !string_app_assoc; reflexivity.
Qed.

Lemma component_ok_inv c :
  component_ok c = true ->
  exists x r, c = String x r /\ x <> "/"%char /\ has_slash c = false /\ c <> ".".
Proof.
  unfold component_ok; intro H.
  apply andb_true_iff in H as [H Hs]; apply andb_true_iff in H as [He Hd].
  apply negb_true_iff in He, Hd, Hs.
  destruct c as [|x r]; [discriminate|].
  exists x, r; repeat split; auto.
  - intro Hx; subst x; unfold has_slash in Hs; simpl in Hs; discriminate.
  - apply String.eqb_neq; exact Hd.
Qed.

Lemma filter_components ps :
  forallb component_ok ps = true ->
  filter (fun c => negb (String.eqb c "") && negb (String.eqb c ".")) ps = ps.
Proof.
  induction ps as [|c ps IH]; intro H; [reflexivity|].
  apply andb_true_iff in H as [Hc Hps]; simpl.
  unfold component_ok in Hc; apply andb_true_iff in Hc as [Hc _].
  rewrite Hc, IH by exact Hps; reflexivity.
Qed.

Lemma prefix_slash_component x r :
  x <> "/"%char -> String.prefix "/" (String x r) = false.
Proof.
  intro Hx.
  change (match ascii_dec "/" x with left _ => String.prefix "" r | right _ => false end = false).
  destruct (ascii_dec "/" x) as [E|E]; [congruence|reflexivity].
Qed.

Lemma prefix_2slash_component x r :
  x <> "/"%char -> String.prefix "//" (String x r) = false.
Proof.
  intro Hx.
  change (match ascii_dec "/" x with left _ => String.prefix "/" r | right _ => false end = false).
  destruct (ascii_dec "/" x) as [E|E]; [congruence|reflexivity].
Qed.

Lemma string_app_nil_r (a : string) : (a ++ "")%string = a.
Proof. induction a as [|x a IH]; simpl; [reflexivity|now rewrite IH]. Qed.

Lemma join_head c ps :
  exists r, join "/" (c :: ps) = (c ++ r)%string.
Proof.
  destruct ps as [|c' ps]; [exists ""; unfold join; simpl; now rewrite string_app_nil_r|].
  exists ("/" ++ join "/" (c' :: ps))%string; reflexivity.
Qed.

(** [Path("/" + "/".join(ps))] for clean components [ps]. *)
Lemma parse_path_abs ps :
  ps <> [] -> forallb component_ok ps = true ->
  parse_path ("/" ++ join "/" ps) = mkPath "/" ps.
Proof.
  intros Hne Hok; destruct ps as [|c ps']; [congruence|].
  pose proof Hok as Hok'; apply andb_true_iff in Hok' as [Hc _].
  destruct (component_ok_inv c Hc) as (x & r & -> & Hx & _ & _).
  destruct (join_head (String x r) ps') as [r' Hj].
  unfold parse_path; f_equal.
  - rewrite Hj; cbn [String.append].
    change (String.prefix "//" (String "/" (String x (r ++ r'))))
      with (String.prefix "/" (String x (r ++ r'))).
    rewrite prefix_slash_component by exact Hx; reflexivity.
  - unfold split_slash; change ("/" ++ join "/" (String x r :: ps'))%string
      with (String "/" (join "/" (String x r :: ps'))).
    cbn [list_ascii_of_string split_go]; rewrite Ascii.eqb_refl.
    fold (split_slash (join "/" (String x r :: ps'))).
    rewrite split_slash_join; [|discriminate|].
    + transitivity (filter (fun c => negb (String.eqb c "") && negb (String.eqb c "."))
                             (String x r :: ps')); [reflexivity|].
      apply filter_components; exact Hok.
    + apply Forall_forall; intros c Hin; apply forallb_forall with (x := c) in Hok; [|exact Hin].
      destruct (component_ok_inv c Hok) as (? & ? & _ & _ & ? & _); assumption.
Qed.

(** [Path(n)] for one clean component [n]. *)
Lemma parse_path_component n :
  component_ok n = true -> parse_path n = mkPath "" [n].
Proof.
  intro Hok; destruct (component_ok_inv n Hok) as (x & r & -> & Hx & Hs & _).
  unfold parse_path; f_equal.
  - rewrite prefix_2slash_component, prefix_slash_component by exact Hx; reflexivity.
  - unfold split_slash; rewrite split_go_noslash by exact Hs; cbn [rev app].
    rewrite string_of_list_ascii_of_string.
    apply filter_components; cbn [forallb]; rewrite Hok; reflexivity.
Qed.

(** ** Claims on [transcribe_file] *)

(** C3: when the process exits with code 0, [transcribe_file] returns
    success and [str(Path(output_dir) / f"{stem}.{output_format}")], whatever
    the process printed.  For an absolute directory written in normal form
    ["/" + "/".join(ps)] and a clean file name this is literally
    [output_dir + "/" + stem + "." + output_format]; for [lecture.mp4],
    [srt] and [/out] it is [/out/lecture.srt]. *)
Theorem transcribe_file_success_output_path :
  (forall e file od fmt cb lines,
     snd (transcribe_file e file od fmt cb (Exits lines 0))
     = (true, path_str (path_div (parse_path od) (stem (parse_path file) ++ "." ++ fmt)))) /\
  (forall e file ps fmt cb lines,
     ps <> [] -> forallb component_ok ps = true ->
     component_ok (stem (parse_path file) ++ "." ++ fmt) = true ->
     snd (transcribe_file e file ("/" ++ join "/" ps) fmt cb (Exits lines 0))
     = (true, "/" ++ join "/" ps ++ "/" ++ stem (parse_path file) ++ "." ++ fmt)%string) /\
  (forall e cb lines,
     snd (transcribe_file e "lecture.mp4" "/out" "srt" cb (Exits lines 0))
     = (true, "/out/lecture.srt")).
Proof.
  split; [|split].
  - intros; rewrite transcribe_file_result; reflexivity.
  - intros e file ps fmt cb lines Hne Hps Hn.
    rewrite transcribe_file_result; cbn [Z.eqb].
    rewrite parse_path_abs by assumption.
    unfold path_div; rewrite parse_path_component by exact Hn; cbn [root parts String.eqb].
    unfold path_str; cbn [root parts].
    rewrite join_snoc by exact Hne; reflexivity.
  - intros; rewrite transcribe_file_result; reflexivity.
Qed.

(** C4: a non-zero exit code gives failure with the reason
    ["Transcription failed"], and [transcribe_file] reports success exactly
    when the process ran and exited with code 0. *)
Theorem transcribe_file_exit_code_contract :
  (forall e file od fmt cb lines code,
     code <> 0%Z ->
     snd (transcribe_file e file od fmt cb (Exits lines code)) = (false, "Transcription failed")) /\
  (forall e file od fmt cb o,
     fst (snd (transcribe_file e file od fmt cb o)) = true <-> exists lines, o = Exits lines 0%Z).
Proof.
  split.
  - intros e file od fmt cb lines code Hc.
    rewrite transcribe_file_result; apply Z.eqb_neq in Hc; rewrite Hc; reflexivity.
  - intros e file od fmt cb o; rewrite transcribe_file_result.
    destruct o as [msg|msg|ls msg|ls code]; split; intro H;
      try discriminate;
      try match goal with Hx : exists _, _ |- _ => destruct Hx as [x Hx]; discriminate end.
    + destruct (Z.eqb code 0) eqn:E; [|discriminate].
      apply Z.eqb_eq in E; subst; exists ls; reflexivity.
    + destruct H as [ls' H]; injection H as _ ->; reflexivity.
Qed.

(** C10: the success path depends on the input only through its stem, the
    output directory and the format: two inputs with the same stem get the
    same output path, whatever the model, language, callback and process
    output of either call (e.g. [/music/a.mp4] and [/video/a.wav]). *)
Theorem output_path_depends_only_on_stem :
  (forall e1 e2 f1 f2 od fmt cb1 cb2 ls1 ls2,
     stem (parse_path f1) = stem (parse_path f2) ->
     snd (transcribe_file e1 f1 od fmt cb1 (Exits ls1 0))
     = snd (transcribe_file e2 f2 od fmt cb2 (Exits ls2 0))) /\
  (forall e1 e2 od fmt cb1 cb2 ls1 ls2,
     "/music/a.mp4" <> "/video/a.wav" /\
     snd (transcribe_file e1 "/music/a.mp4" od fmt cb1 (Exits ls1 0))
     = snd (transcribe_file e2 "/video/a.wav" od fmt cb2 (Exits ls2 0))).
Proof.
  split.
  - intros e1 e2 f1 f2 od fmt cb1 cb2 ls1 ls2 H; rewrite !transcribe_file_result, H; reflexivity.
  - intros; split; [discriminate|].
    rewrite !transcribe_file_result; reflexivity.
Qed.

(** How many files the loop starts, and how it ends, does not depend on what
    the external tool does. *)
Lemma batch_loop_progress_env_indep e running env env' od fmt cb total idx files :
  length (fst (snd (batch_loop e running env od fmt cb total idx files)))
  = length (fst (snd (batch_loop e running env' od fmt cb total idx files))) /\
  snd (snd (batch_loop e running env od fmt cb total idx files))
  = snd (snd (batch_loop e running env' od fmt cb total idx files)).
Proof.
  revert idx; induction files as [|f rest IH]; intro idx; [split; reflexivity|].
  destruct (running idx) eqn:Hr.
  - rewrite !snd_batch_loop_go by exact Hr; simpl.
    destruct (IH (S idx)) as [H1 H2]; rewrite H1, H2; split; reflexivity.
  - rewrite !snd_batch_loop_stop by exact Hr; split; reflexivity.
Qed.

(** C5: an exception while transcribing a file becomes the failure
    [(False, str(e))]; it is recorded as that file's result; how many files
    the batch goes through (and how it ends) depends only on the flag, never
    on failures; with the flag never cleared every file gets exactly one
    result and the loop runs to its end. *)
Theorem file_exception_recorded_batch_continues :
  (forall e file od fmt cb o msg,
     raised_msg o = Some msg -> snd (transcribe_file e file od fmt cb o) = (false, msg)) /\
  (forall e running env i f msg files od fmt cb,
     let rs := fst (snd (transcribe_batch e running env files od fmt cb)) in
     i < length rs -> nth_error files i = Some f -> raised_msg (env (S i)) = Some msg ->
     nth_error rs i = Some (mkResult f false msg)) /\
  (forall e running env env' files od fmt cb,
     length (fst (snd (transcribe_batch e running env files od fmt cb)))
     = length (fst (snd (transcribe_batch e running env' files od fmt cb))) /\
     snd (snd (transcribe_batch e running env files od fmt cb))
     = snd (snd (transcribe_batch e running env' files od fmt cb))) /\
  (forall e env files od fmt cb,
     let out := snd (transcribe_batch e (fun _ => true) env files od fmt cb) in
     length (fst out) = length files /\ snd out = Completed).
Proof.
  assert (Hexc : forall e file od fmt cb o msg,
     raised_msg o = Some msg -> snd (transcribe_file e file od fmt cb o) = (false, msg)).
  { intros e file od fmt cb o msg H; rewrite transcribe_file_result.
    destruct o; simpl in H; try discriminate; injection H as ->; reflexivity. }
  split; [exact Hexc|split; [|split]].
  - intros e running env i f msg files od fmt cb; cbn zeta; intros Hi Hf Hm.
    destruct (batch_loop_shape e od fmt cb (length files) running env 1 files)
      as (_ & _ & _ & _ & H5); cbn zeta in H5.
    unfold transcribe_batch in *; rewrite (H5 i Hi), Hf; simpl.
    unfold job_of; rewrite (Hexc _ _ _ _ _ _ _ Hm); reflexivity.
  - intros; apply batch_loop_progress_env_indep.
  - intros e env files od fmt cb; cbn zeta; unfold transcribe_batch.
    destruct (batch_loop_shape e od fmt cb (length files) (fun _ => true) env 1 files)
      as (H1 & _ & H3 & H4 & _); cbn zeta in *.
    assert (Hn : length (fst (snd (batch_loop e (fun _ => true) env od fmt cb
                   (length files) 1 files))) = length files).
    { destruct (Nat.lt_ge_cases (length (fst (snd (batch_loop e (fun _ => true) env od fmt cb
                   (length files) 1 files)))) (length files)) as [Hlt|Hge];
        [discriminate (H3 Hlt)|lia]. }
    split; [exact Hn|]; rewrite H4, Hn, Nat.ltb_irrefl; reflexivity.
Qed.

(** ** Sink lines of [transcribe_file] *)

Lemma fst_forward_lines lines :
  fst (forward_lines true lines) = map rstrip (filter (fun l => negb (String.eqb l "")) lines).
Proof.
  induction lines as [|l ls IH]; [reflexivity|].
  simpl forward_lines; rewrite fst_bind; cbv beta; rewrite IH.
  simpl filter; destruct (String.eqb l "") eqn:E; reflexivity.
Qed.

(** The lines [transcribe_file] passes to the callback: the processing banner
    and the command, the process output line by line ([rstrip]ped), and the
    outcome notification. *)
Lemma fst_transcribe_file e f od fmt o :
  let fp := parse_path f in
  let cmd := whisper_cmd e fp (parse_path od) fmt in
  let fwd := fun ls => map rstrip (filter (fun l => negb (String.eqb l "")) ls) in
  fst (transcribe_file e f od fmt true o) =
  match o with
  | MkdirFails msg => [error_line fp msg]
  | LaunchFails msg => [processing_line fp; cmd_line cmd; error_line fp msg]
  | ReadFails ls msg => [processing_line fp; cmd_line cmd] ++ fwd ls ++ [error_line fp msg]
  | Exits ls code =>
      [processing_line fp; cmd_line cmd] ++ fwd ls ++
      (if Z.eqb code 0
       then [success_line fp;
             output_line (path_div (parse_path od) (stem fp ++ "." ++ fmt))]
       else [failed_line fp])
  end.
Proof.
  cbn zeta; destruct o as [msg|msg|ls msg|ls code]; unfold transcribe_file, on_exception;
    repeat (first [rewrite fst_bind | rewrite snd_bind]; cbv beta); try reflexivity.
  - rewrite fst_forward_lines; reflexivity.
  - rewrite fst_forward_lines; destruct (Z.eqb code 0);
      repeat (first [rewrite fst_bind | rewrite snd_bind]; cbv beta); reflexivity.
Qed.

Lemma prefix_summary_nl s : String.prefix summary_prefix (nl ++ s) = false.
Proof. reflexivity. Qed.

(** A line of [transcribe_file] that looks like the summary is a line the
    process printed. *)
Lemma transcribe_file_summary_like e f od fmt o s :
  In s (fst (transcribe_file e f od fmt true o)) ->
  String.prefix summary_prefix s = true ->
  exists l, In l (stream_lines o) /\ s = rstrip l.
Proof.
  rewrite fst_transcribe_file; cbn zeta; intros Hin Hp.
  assert (Hfwd : forall ls, In s (map rstrip (filter (fun l => negb (String.eqb l "")) ls)) ->
                            exists l, In l ls /\ s = rstrip l).
  { intros ls H; apply in_map_iff in H as (l & <- & Hl); apply filter_In in Hl as [Hl _].
    exists l; split; [exact Hl|reflexivity]. }
  destruct o as [msg|msg|ls msg|ls code]; simpl stream_lines;
    repeat (apply in_app_iff in Hin as [Hin|Hin]);
    try (apply Hfwd; exact Hin);
    try (destruct (Z.eqb code 0));
    repeat (destruct Hin as [<-|Hin]; [discriminate Hp|]); contradiction.
Qed.

(** A line of the batch that looks like the summary is a line some process
    printed: the runner's own lines never do. *)
Lemma batch_summary_like e running env files od fmt s :
  In s (fst (transcribe_batch e running env files od fmt true)) ->
  String.prefix summary_prefix s = true ->
  exists i l, In l (stream_lines (env i)) /\ s = rstrip l.
Proof.
  unfold transcribe_batch; rewrite fst_batch_loop; intros Hin Hp.
  apply in_app_iff in Hin as [Hin|Hin].
  - apply in_flat_map in Hin as ([i f] & _ & Hin); simpl in Hin.
    destruct Hin as [<-|Hin]; [discriminate Hp|].
    destruct (transcribe_file_summary_like e f od fmt (env i) s Hin Hp) as (l & Hl & ->).
    exists i, l; split; [exact Hl|reflexivity].
  - destruct (Nat.ltb _ _); [|contradiction].
    destruct Hin as [<-|[]]; discriminate Hp.
Qed.

Lemma log_all_text g ms : log_text (log_all g ms) = log_text g ++ ms.
Proof.
  unfold log_all; revert g; induction ms as [|m ms IH]; intro g; simpl.
  - now rewrite app_nil_r.
  - rewrite IH; simpl; now rewrite <- app_assoc.
Qed.

(** The worker's log: the lines it had, the batch's sink lines, then the
    summary computed from the returned results. *)
Lemma transcription_worker_log g st running env :
  let out := transcribe_batch (mkEngine (model_var st) (language_var st)) running env
               (selected_files g) (output_directory st) (format_var st) true in
  log_text (snd (transcription_worker g st running env))
  = log_text g ++ fst out ++ summary_lines (fst (snd out)).
Proof.
  cbn zeta; unfold transcription_worker; cbv zeta.
  destruct (transcribe_batch _ _ _ _ _ _ _) as [lines [rs ex]]; cbn [fst snd].
  destruct (Nat.eqb _ _); cbn [fst snd log_text];
    rewrite !log_all_text, app_assoc; reflexivity.
Qed.

(** C8: [transcribe_batch] returns the results and its sink lines and nothing
    else; [transcription_worker] appends the summary, computed from the
    returned results, after the batch lines.  No line of the runner itself
    looks like the summary (such a line can only be one the external process
    printed).  For any three files where the 2nd exits non-zero and the others
    exit 0 (whatever they print, whatever the settings) the results are
    [success, failure, success] and the summary logged after the batch lines
    says [2/3 successful]. *)
Theorem caller_computes_summary :
  (forall g st running env,
     let out := transcribe_batch (mkEngine (model_var st) (language_var st)) running env
                  (selected_files g) (output_directory st) (format_var st) true in
     log_text (snd (transcription_worker g st running env))
     = log_text g ++ fst out ++ summary_lines (fst (snd out))) /\
  (forall e running env files od fmt s,
     In s (fst (transcribe_batch e running env files od fmt true)) ->
     String.prefix summary_prefix s = true ->
     exists i l, In l (stream_lines (env i)) /\ s = rstrip l) /\
  (forall g st running env f1 f2 f3 ls1 ls2 ls3 c,
     selected_files g = [f1; f2; f3] ->
     env 1 = Exits ls1 0%Z -> env 2 = Exits ls2 c -> env 3 = Exits ls3 0%Z -> c <> 0%Z ->
     running 1 = true -> running 2 = true -> running 3 = true ->
     let out := transcribe_batch (mkEngine (model_var st) (language_var st)) running env
                  (selected_files g) (output_directory st) (format_var st) true in
     map success (fst (snd out)) = [true; false; true] /\
     log_text (snd (transcription_worker g st running env))
     = log_text g ++ fst out ++
       [(nl ++ repeat_str 90 "=")%string;
        "✅ COMPLETE: 2/3 successful";
        (repeat_str 90 "=" ++ nl)%string]).
Proof.
  split; [|split].
  - exact transcription_worker_log.
  - exact batch_summary_like.
  - intros g st running env f1 f2 f3 ls1 ls2 ls3 c Hs He1 He2 He3 Hc H1 H2 H3; cbv zeta.
    rewrite transcription_worker_log; cbv zeta.
    set (e := mkEngine (model_var st) (language_var st)).
    set (od := output_directory st); set (fmt := format_var st).
    assert (Hb : snd (transcribe_batch e running env (selected_files g) od fmt true)
                 = ([job_of e env od fmt true 1 f1; job_of e env od fmt true 2 f2;
                     job_of e env od fmt true 3 f3], Completed)).
    { rewrite Hs; unfold transcribe_batch.
      rewrite snd_batch_loop_go by exact H1; rewrite snd_batch_loop_go by exact H2;
        rewrite snd_batch_loop_go by exact H3; reflexivity. }
    apply Z.eqb_neq in Hc.
    assert (S1 : success (job_of e env od fmt true 1 f1) = true)
      by (unfold job_of; cbn [success]; rewrite transcribe_file_result, He1; reflexivity).
    assert (S2 : success (job_of e env od fmt true 2 f2) = false)
      by (unfold job_of; cbn [success]; rewrite transcribe_file_result, He2, Hc; reflexivity).
    assert (S3 : success (job_of e env od fmt true 3 f3) = true)
      by (unfold job_of; cbn [success]; rewrite transcribe_file_result, He3; reflexivity).
    rewrite Hb; cbn [fst map]; rewrite S1, S2, S3; split; [reflexivity|].
    unfold summary_lines, success_count; cbn [filter]; rewrite S1, S2, S3; reflexivity.
Qed.

(** ** The file selection *)

(** C6: [start_transcription] with no selected file shows the "No Files"
    warning and returns with the GUI untouched: no log change, no engine and
    no worker thread, so no process is launched. *)
Theorem start_rejects_empty_selection g st :
  selected_files g = [] ->
  start_transcription g st
  = ([ShowWarning "No Files" "Please select at least one file to transcribe."], g).
Proof. intro H; unfold start_transcription; rewrite H; reflexivity. Qed.

Lemma dedup_incl x l : In x (dedup l) -> In x l.
Proof.
  induction l as [|y r IH]; simpl; [tauto|].
  destruct (existsb (String.eqb y) r); simpl; intuition.
Qed.

Lemma dedup_NoDup l : NoDup (dedup l).
Proof.
  induction l as [|y r IH]; simpl; [constructor|].
  destruct (existsb (String.eqb y) r) eqn:E; [exact IH|].
  constructor; [|exact IH].
  intro Hin; apply dedup_incl in Hin.
  assert (existsb (String.eqb y) r = true) by (apply existsb_exists; exists y; split;
    [exact Hin|apply String.eqb_refl]).
  congruence.
Qed.

Lemma insert_sorted_perm x l : Permutation (insert_sorted x l) (x :: l).
Proof.
  induction l as [|y r IH]; simpl; [reflexivity|].
  destruct (String.leb x y); [reflexivity|].
  eapply perm_trans; [apply perm_skip, IH|apply perm_swap].
Qed.

Lemma sort_strings_perm l : Permutation (sort_strings l) l.
Proof.
  induction l as [|x r IH]; simpl; [reflexivity|].
  eapply perm_trans; [apply insert_sorted_perm|].
  apply perm_skip, IH.
Qed.

Lemma insert_sorted_hd y x r :
  HdRel str_le y r -> str_le y x -> HdRel str_le y (insert_sorted x r).
Proof.
  intros Hr Hx; destruct r as [|z r]; simpl; [constructor; exact Hx|].
  destruct (String.leb x z); constructor; [exact Hx|inversion Hr; assumption].
Qed.

Lemma insert_sorted_sorted x l : Sorted str_le l -> Sorted str_le (insert_sorted x l).
Proof.
  induction l as [|y r IH]; intro Hs; simpl; [repeat constructor|].
  destruct (String.leb x y) eqn:E.
  - constructor; [exact Hs|constructor; exact E].
  - inversion Hs as [|? ? Hr Hhd]; subst.
    constructor; [apply IH, Hr|].
    apply insert_sorted_hd; [exact Hhd|].
    destruct (String.leb_total x y) as [H|H]; [congruence|exact H].
Qed.

Lemma sort_strings_sorted l : Sorted str_le (sort_strings l).
Proof.
  induction l as [|x r IH]; simpl; [constructor|].
  apply insert_sorted_sorted, IH.
Qed.

(** The list [files] that [load_files_from_folder] builds has no duplicate
    and is sorted. *)
Lemma load_files_sorted_nodup g folder entries :
  let files := snd (load_files_from_folder g folder entries) in
  NoDup files /\ Sorted str_le files.
Proof.
  cbn zeta; unfold load_files_from_folder.
  destruct (flat_map _ supported_all) as [|p ps]; cbn [snd]; [split; constructor|].
  split.
  - eapply Permutation_NoDup; [symmetry; apply sort_strings_perm|apply dedup_NoDup].
  - apply sort_strings_sorted.
Qed.

(** C7: the folder listing is not case-insensitive: it globs each extension
    in lower case and in upper case only, and POSIX glob matching is
    case-sensitive, so a folder whose only media file is [talk.Mp4] loads
    nothing and shows the "No Files" warning, although [.Mp4] is [.mp4] up to
    case.  The case variants [a.MP4] and [a.mp4] are both loaded, once each. *)
Theorem load_folder_misses_mixed_case_extension :
  let g0 := mkGui [] false [] "" false in
  load_files_from_folder g0 "/media" ["talk.Mp4"]
  = ([ShowWarning "No Files" ("No media files found in:" ++ nl ++ "/media")], g0, []) /\
  existsb (endswith_ci "talk.Mp4") supported_all = true /\
  snd (load_files_from_folder g0 "/m" ["a.MP4"; "a.mp4"]) = ["/m/a.MP4"; "/m/a.mp4"].
Proof. cbn zeta; repeat split; vm_compute; reflexivity. Qed.

(** ** The sink stream of a batch *)

(** C9: with a callback, the batch's sink lines are, for each started file in
    input order, the header [[idx/total] Processing: name] followed by the
    lines [transcribe_file] emits for that file (banner, command, the
    process output line by line, then the success, failure or error
    notification), and the stop notice if the loop was left by [break]. *)
Theorem batch_log_interleaves_headers :
  (forall e running env files od fmt,
     let out := transcribe_batch e running env files od fmt true in
     let n := length (fst (snd out)) in
     fst out =
     flat_map (fun p => batch_header (fst p) (length files) (snd p)
                         :: fst (transcribe_file e (snd p) od fmt true (env (fst p))))
              (combine (seq 1 n) (firstn n files))
     ++ (if Nat.ltb n (length files) then [stopped_line] else [])) /\
  (forall idx total f,
     exists pre post,
     batch_header idx total f
     = (pre ++ "[" ++ str_nat idx ++ "/" ++ str_nat total ++ "] Processing: "
            ++ name (parse_path f) ++ post)%string) /\
  (forall e f od fmt o,
     let fp := parse_path f in
     let cmd := whisper_cmd e fp (parse_path od) fmt in
     let fwd := fun ls => map rstrip (filter (fun l => negb (String.eqb l "")) ls) in
     fst (transcribe_file e f od fmt true o) =
     match o with
     | MkdirFails msg => [error_line fp msg]
     | LaunchFails msg => [processing_line fp; cmd_line cmd; error_line fp msg]
     | ReadFails ls msg => [processing_line fp; cmd_line cmd] ++ fwd ls ++ [error_line fp msg]
     | Exits ls code =>
         [processing_line fp; cmd_line cmd] ++ fwd ls ++
         (if Z.eqb code 0
          then [success_line fp;
                output_line (path_div (parse_path od) (stem fp ++ "." ++ fmt))]
          else [failed_line fp])
     end).
Proof.
  split; [|split].
  - intros; apply fst_batch_loop.
  - intros idx total f.
    exists (nl ++ repeat_str 80 "#" ++ nl)%string, (nl ++ repeat_str 80 "#")%string.
    unfold batch_header; rewrite !string_app_assoc; reflexivity.
  - exact fst_transcribe_file.
Qed.

(** ** Witnesses *)

Lemma cancellation_at_file_boundary_witness :
  let out := snd (transcribe_batch (mkEngine "small" "en") (fun i => Nat.ltb i 2)
                    (fun _ => Exits ["done"] 0) ["/in/a.mp4"; "/in/b.mp4"; "/in/c.mp4"]
                    "/out" "txt" true) in
  length (fst out) < 2 /\ length (fst out) = 1 /\ snd out = Stopped.
Proof.
  cbn zeta.
  destruct cancellation_at_file_boundary as [Hgen Hex].
  destruct (Hgen (mkEngine "small" "en") (fun i => Nat.ltb i 2) (fun _ => Exits ["done"] 0)
              ["/in/a.mp4"; "/in/b.mp4"; "/in/c.mp4"] "/out" "txt" true 2
              ltac:(lia) ltac:(simpl; lia) eq_refl) as (H1 & _).
  destruct (Hex (mkEngine "small" "en") (fun i => Nat.ltb i 2) (fun _ => Exits ["done"] 0)
              ["/in/a.mp4"; "/in/b.mp4"; "/in/c.mp4"] "/out" "txt" true
              ltac:(simpl; lia) eq_refl eq_refl) as (H2 & H3).
  exact (conj H1 (conj H2 H3)).
Defined.

Lemma transcribe_file_success_output_path_witness :
  snd (transcribe_file (mkEngine "small" "en") "/rec/lecture.mp4" "/home/u/Transcriptions" "srt"
         true (Exits ["[00:00.000 --> 00:02.000] hello"] 0))
  = (true, "/home/u/Transcriptions/lecture.srt").
Proof.
  destruct transcribe_file_success_output_path as (_ & H & _).
  exact (H (mkEngine "small" "en") "/rec/lecture.mp4" ["home"; "u"; "Transcriptions"] "srt" true
           ["[00:00.000 --> 00:02.000] hello"] ltac:(discriminate) eq_refl eq_refl).
Defined.

Lemma transcribe_file_exit_code_contract_witness :
  snd (transcribe_file (mkEngine "small" "en") "/in/a.mp4" "/out" "txt" true (Exits ["oops"] 2))
  = (false, "Transcription failed").
Proof.
  exact (proj1 transcribe_file_exit_code_contract (mkEngine "small" "en") "/in/a.mp4" "/out" "txt"
           true ["oops"] 2%Z ltac:(discriminate)).
Defined.

Lemma file_exception_recorded_batch_continues_witness :
  nth_error (fst (snd (transcribe_batch (mkEngine "small" "en") (fun _ => true)
                        (fun i => if Nat.eqb i 1 then LaunchFails "No such file or directory: 'whisper'"
                                  else Exits [] 0)
                        ["/in/a.mp4"; "/in/b.mp4"] "/out" "txt" true))) 0
  = Some (mkResult "/in/a.mp4" false "No such file or directory: 'whisper'").
Proof.
  destruct file_exception_recorded_batch_continues as (_ & H & _).
  exact (H (mkEngine "small" "en") (fun _ => true)
           (fun i => if Nat.eqb i 1 then LaunchFails "No such file or directory: 'whisper'"
                     else Exits [] 0)
           0 "/in/a.mp4" "No such file or directory: 'whisper'" ["/in/a.mp4"; "/in/b.mp4"]
           "/out" "txt" true ltac:(vm_compute; lia) eq_refl eq_refl).
Defined.

Lemma start_rejects_empty_selection_witness :
  start_transcription (mkGui [] false ["old line"] "Ready" false) example_settings
  = ([ShowWarning "No Files" "Please select at least one file to transcribe."],
     mkGui [] false ["old line"] "Ready" false).
Proof. exact (start_rejects_empty_selection (mkGui [] false ["old line"] "Ready" false) example_settings eq_refl). Defined.

Lemma caller_computes_summary_witness :
  map success (fst (snd (transcribe_batch (mkEngine "small" "en") (fun _ => true) (example_env 7)
                            (selected_files example_gui) "/out" "txt" true)))
  = [true; false; true].
Proof.
  destruct caller_computes_summary as (_ & _ & H).
  exact (proj1 (H example_gui example_settings (fun _ => true) (example_env 7)
                  "/in/a.mp4" "/in/b.mp4" "/in/c.mp4" [] [] [] 7%Z
                  eq_refl eq_refl eq_refl eq_refl ltac:(discriminate) eq_refl eq_refl eq_refl)).
Defined.

Lemma output_path_depends_only_on_stem_witness :
  snd (transcribe_file (mkEngine "small" "en") "/music/a.mp4" "/out" "srt" true (Exits [] 0))
  = snd (transcribe_file (mkEngine "large" "de") "/video/a.wav" "/out" "srt" false (Exits ["x"] 0)).
Proof.
  exact (proj1 output_path_depends_only_on_stem (mkEngine "small" "en") (mkEngine "large" "de")
           "/music/a.mp4" "/video/a.wav" "/out" "srt" true false [] ["x"] eq_refl).
Defined.

(** * Further properties of the code *)

(** ** The batch without a callback, and its edge cases *)

Lemma fst_forward_lines_nocb lines : fst (forward_lines false lines) = [].
Proof.
  induction lines as [|l ls IH]; [reflexivity|].
  simpl forward_lines; rewrite fst_bind; cbv beta; rewrite IH.
  destruct (String.eqb l ""); reflexivity.
Qed.

Lemma fst_transcribe_file_nocb e f od fmt o : fst (transcribe_file e f od fmt false o) = [].
Proof.
  destruct o as [msg|msg|ls msg|ls code]; unfold transcribe_file, on_exception;
    repeat (first [rewrite fst_bind | rewrite snd_bind]; cbv beta); try reflexivity.
  - rewrite fst_forward_lines_nocb; reflexivity.
  - rewrite fst_forward_lines_nocb; destruct (Z.eqb code 0);
      repeat (first [rewrite fst_bind | rewrite snd_bind]; cbv beta); reflexivity.
Qed.

Lemma batch_loop_nocb e running env od fmt total idx files :
  snd (batch_loop e running env od fmt false total idx files)
  = snd (batch_loop e running env od fmt true total idx files) /\
  fst (batch_loop e running env od fmt false total idx files) = [].
Proof.
  revert idx; induction files as [|f rest IH]; intro idx; [split; reflexivity|].
  destruct (IH (S idx)) as [H1 H2].
  destruct (running idx) eqn:Hr.
  - rewrite !snd_batch_loop_go by exact Hr.
    unfold job_of; rewrite !transcribe_file_result, H1; split; [reflexivity|].
    rewrite batch_loop_cons_go by exact Hr.
    repeat (first [rewrite fst_bind | rewrite snd_bind]; cbv beta).
    rewrite fst_transcribe_file_nocb, H2; reflexivity.
  - rewrite !snd_batch_loop_stop by exact Hr; split; [reflexivity|].
    rewrite batch_loop_cons_stop by exact Hr; reflexivity.
Qed.

(** [transcribe_batch(..., callback=None)] returns the same results, and ends
    the same way, as with a callback; it reports nothing. *)
Theorem transcribe_batch_without_callback e running env files od fmt :
  snd (transcribe_batch e running env files od fmt false)
  = snd (transcribe_batch e running env files od fmt true) /\
  fst (transcribe_batch e running env files od fmt false) = [].
Proof. apply batch_loop_nocb. Qed.

(** ** The worker's outcome *)

Lemma filter_length_le' (A : Type) (p : A -> bool) l : length (filter p l) <= length l.
Proof. induction l as [|a l IH]; simpl; [lia|]; destruct (p a); simpl; lia. Qed.

Lemma success_count_all rs : Nat.eqb (success_count rs) (length rs) = forallb success rs.
Proof.
  unfold success_count; induction rs as [|r rs IH]; [reflexivity|].
  simpl; destruct (success r); simpl; [exact IH|].
  apply Nat.eqb_neq; pose proof (filter_length_le' _ success rs); lia.
Qed.

Lemma log_all_fields g ms :
  selected_files (log_all g ms) = selected_files g /\
  is_transcribing (log_all g ms) = is_transcribing g /\
  status_text (log_all g ms) = status_text g /\
  worker_started (log_all g ms) = worker_started g.
Proof.
  unfold log_all; revert g; induction ms as [|m ms IH]; intro g; [repeat split|].
  simpl; destruct (IH (log g m)) as (H1 & H2 & H3 & H4).
  rewrite H1, H2, H3, H4; repeat split.
Qed.

(** [transcription_worker] always ends with [is_transcribing = False] (the
    [finally] block), keeps the selection, never shows the "Stopped by user"
    status, and picks the dialog from the results alone: "Success" when every
    returned job succeeded (also when the run was stopped, counting only the
    jobs that ran), "Partial Success" otherwise. *)
Theorem transcription_worker_outcome g st running env :
  let rs := fst (snd (transcribe_batch (mkEngine (model_var st) (language_var st)) running env
                       (selected_files g) (output_directory st) (format_var st) true)) in
  let res := transcription_worker g st running env in
  is_transcribing (snd res) = false /\
  selected_files (snd res) = selected_files g /\
  worker_started (snd res) = worker_started g /\
  status_text (snd res) <> "⏹️  Stopped by user" /\
  (forallb success rs = true ->
     fst res = [ShowInfo "Success"
                  ("All " ++ str_nat (length rs) ++ " file(s) transcribed!" ++ nl ++ nl
                   ++ "Output: " ++ path_str (parse_path (output_directory st)))] /\
     status_text (snd res) = "✅ All files transcribed!") /\
  (forallb success rs = false ->
     exists msg, fst res = [ShowWarning "Partial Success" msg]).
Proof.
  cbv zeta; unfold transcription_worker; cbv zeta.
  destruct (transcribe_batch _ _ _ _ _ _ _) as [lines [rs ex]]; cbn [fst snd].
  pose proof (success_count_all rs) as HS.
  destruct (log_all_fields (log_all g lines) (summary_lines rs)) as (F1 & _ & _ & F4).
  destruct (log_all_fields g lines) as (G1 & _ & _ & G4).
  destruct (Nat.eqb (success_count rs) (length rs)) eqn:E; cbn [fst snd selected_files
    is_transcribing status_text worker_started]; rewrite F1, G1, F4, G4.
  - apply Nat.eqb_eq in E; rewrite E.
    split; [reflexivity|split; [reflexivity|split; [reflexivity|split]]].
    + intro H; discriminate H.
    + split; [intros _; split; reflexivity|intro H; congruence].
  - split; [reflexivity|split; [reflexivity|split; [reflexivity|split]]].
    + intro H; discriminate H.
    + split; [intro H; congruence|intros _; eexists; reflexivity].
Qed.

(** A run stopped after its first file, which succeeded, is summarised over
    the one job that ran: "COMPLETE: 1/1" in the log and the "Success" dialog,
    though the other selected files were never transcribed. *)
Theorem worker_stopped_run_reports_success g st running env f1 f2 rest ls :
  selected_files g = f1 :: f2 :: rest ->
  running 1 = true -> running 2 = false -> env 1 = Exits ls 0 ->
  fst (transcription_worker g st running env)
  = [ShowInfo "Success" ("All 1 file(s) transcribed!" ++ nl ++ nl
                          ++ "Output: " ++ path_str (parse_path (output_directory st)))] /\
  In "✅ COMPLETE: 1/1 successful" (log_text (snd (transcription_worker g st running env))).
Proof.
  intros Hsel H1 H2 He.
  set (e := mkEngine (model_var st) (language_var st)).
  assert (Hrs : snd (transcribe_batch e running env (selected_files g) (output_directory st)
                       (format_var st) true)
                = ([job_of e env (output_directory st) (format_var st) true 1 f1], Stopped)).
  { rewrite Hsel; unfold transcribe_batch.
    rewrite snd_batch_loop_go by exact H1; rewrite snd_batch_loop_stop by exact H2.
    reflexivity. }
  assert (Hs : success (job_of e env (output_directory st) (format_var st) true 1 f1) = true).
  { unfold job_of; cbn [success]; rewrite transcribe_file_result, He; reflexivity. }
  unfold transcription_worker; cbv zeta; fold e.
  destruct (transcribe_batch e running env (selected_files g) (output_directory st)
              (format_var st) true) as [lines [rs ex]].
  cbn [snd] in Hrs; injection Hrs as Hrs _; subst rs; cbv zeta.
  cbn [fst]; unfold success_count; cbn [filter]; rewrite Hs; cbn [length Nat.eqb].
  split; [reflexivity|].
  cbn [snd log_text]; rewrite !log_all_text; apply in_or_app; right.
  unfold summary_lines, success_count; cbn [filter]; rewrite Hs.
  right; left; reflexivity.
Qed.

(** ** A run stopped before its first file *)

(** A run whose flag is cleared before the first file starts (the user
    stopped it at once) returns no result; the worker then logs the stop
    notice and a "COMPLETE: 0/0" summary and shows the "Success" dialog
    "All 0 file(s) transcribed!", although no file was transcribed. *)
Theorem worker_stopped_before_first_file g st running env :
  selected_files g <> [] -> running 1 = false ->
  fst (transcription_worker g st running env)
  = [ShowInfo "Success" ("All 0 file(s) transcribed!" ++ nl ++ nl
                          ++ "Output: " ++ path_str (parse_path (output_directory st)))] /\
  log_text (snd (transcription_worker g st running env))
  = log_text g ++ stopped_line ::
    [(nl ++ repeat_str 90 "=")%string;
     "✅ COMPLETE: 0/0 successful";
     (repeat_str 90 "=" ++ nl)%string].
Proof.
  intros Hne Hr.
  assert (Hb : forall e od fmt,
             transcribe_batch e running env (selected_files g) od fmt true
             = ([stopped_line], ([], Stopped))).
  { intros e od fmt; destruct (selected_files g) as [|f rest]; [congruence|].
    unfold transcribe_batch; rewrite batch_loop_cons_stop by exact Hr; reflexivity. }
  unfold transcription_worker; cbv zeta; rewrite Hb; cbn [fst snd].
  split; [reflexivity|].
  cbn [log_text]; rewrite !log_all_text, <- app_assoc; reflexivity.
Qed.

(** ** Adding files to the selection *)

Lemma existsb_eqb_In f l : existsb (String.eqb f) l = true <-> In f l.
Proof.
  rewrite existsb_exists; split.
  - intros (x & Hx & E); apply String.eqb_eq in E; subst; exact Hx.
  - intro H; exists f; split; [exact H|apply String.eqb_refl].
Qed.

Lemma fold_append_new_prefix fs sel :
  exists added, fold_left append_new fs sel = sel ++ added.
Proof.
  revert sel; induction fs as [|f fs IH]; intro sel; simpl.
  - exists []; symmetry; apply app_nil_r.
  - destruct (IH (append_new sel f)) as (a & Ha); rewrite Ha; unfold append_new.
    destruct (existsb (String.eqb f) sel); [exists a; reflexivity|].
    exists (f :: a); rewrite <- app_assoc; reflexivity.
Qed.

Lemma append_new_In x sel f : In x (append_new sel f) <-> In x sel \/ x = f.
Proof.
  unfold append_new; destruct (existsb (String.eqb f) sel) eqn:E.
  - apply existsb_eqb_In in E; split; [tauto|intros [H|H]; [exact H|subst; exact E]].
  - rewrite in_app_iff; simpl; split; intros [H|H];
      [left; exact H|right; destruct H as [H|[]]; symmetry; exact H
      |left; exact H|right; left; symmetry; exact H].
Qed.

Lemma fold_append_new_In x fs sel :
  In x (fold_left append_new fs sel) <-> In x sel \/ In x fs.
Proof.
  revert sel; induction fs as [|f fs IH]; intro sel; simpl.
  - tauto.
  - rewrite IH, append_new_In; split; intros H; intuition congruence.
Qed.

Lemma fold_append_new_NoDup fs sel :
  NoDup sel -> NoDup (fold_left append_new fs sel).
Proof.
  revert sel; induction fs as [|f fs IH]; intros sel H; simpl; [exact H|].
  apply IH; unfold append_new; destruct (existsb (String.eqb f) sel) eqn:E; [exact H|].
  apply NoDup_app; [exact H|constructor; [intros []|constructor]|].
  intros x Hx [Hy|[]]; subst x.
  assert (In f sel -> False) by (intro Hi; apply existsb_eqb_In in Hi; congruence).
  contradiction.
Qed.

Lemma fold_append_new_present fs sel :
  (forall f, In f fs -> In f sel) -> fold_left append_new fs sel = sel.
Proof.
  revert sel; induction fs as [|f fs IH]; intros sel H; simpl; [reflexivity|].
  unfold append_new at 2.
  replace (existsb (String.eqb f) sel) with true
    by (symmetry; apply existsb_eqb_In, H; left; reflexivity).
  apply IH; intros x Hx; apply H; right; exact Hx.
Qed.

(** [select_files]: a cancelled dialog (no file) changes nothing; otherwise
    the old selection stays as it is, in front, every picked file ends up in
    the selection, nothing else is added, and a selection without duplicates
    stays without duplicates. *)
Theorem select_files_appends g files :
  (files = [] -> select_files g files = g) /\
  (exists added, selected_files (select_files g files) = selected_files g ++ added) /\
  (forall f, In f (selected_files (select_files g files))
             <-> In f (selected_files g) \/ In f files) /\
  (NoDup (selected_files g) -> NoDup (selected_files (select_files g files))).
Proof.
  unfold select_files; destruct files as [|f0 fs].
  - split; [reflexivity|split; [exists []; symmetry; apply app_nil_r|split; [|tauto]]].
    intros f; simpl; tauto.
  - split; [discriminate|cbn [selected_files set_selected]; split; [|split]].
    + apply fold_append_new_prefix.
    + intro f; apply fold_append_new_In.
    + apply fold_append_new_NoDup.
Qed.

(** Picking the same files twice selects them once: [select_files] is
    idempotent. *)
Theorem select_files_idempotent g files :
  select_files (select_files g files) files = select_files g files.
Proof.
  unfold select_files; destruct files as [|f0 fs]; [reflexivity|].
  cbn [selected_files set_selected].
  rewrite (fold_append_new_present (f0 :: fs) (fold_left append_new (f0 :: fs) (selected_files g)));
    [reflexivity|].
  intros f Hf; apply fold_append_new_In; right; exact Hf.
Qed.

(** ** Loading a folder *)

Lemma dedup_complete x l : In x l -> In x (dedup l).
Proof.
  induction l as [|y r IH]; simpl; [tauto|].
  destruct (existsb (String.eqb y) r) eqn:E; intros [H|H].
  - subst; apply IH, existsb_eqb_In, E.
  - apply IH, H.
  - left; exact H.
  - right; apply IH, H.
Qed.

(** The message [load_files_from_folder] logs after a load. *)
Definition loaded_line (folder : string) (n : nat) : string :=
  ("✅ Loaded " ++ str_nat n ++ " file(s) from '" ++ name (parse_path folder) ++ "'")%string.

(** [load_files_from_folder]: when nothing matches, the "No Files" warning and
    no change; otherwise no dialog, the found files merged after the old
    selection (nothing else added, no duplicate introduced), and one
    "Loaded" line with the number of files found appended to the log. *)
Theorem load_files_from_folder_merges g folder entries :
  let r := load_files_from_folder g folder entries in
  let g' := snd (fst r) in
  (snd r = [] ->
     fst (fst r) = [ShowWarning "No Files"
                      ("No media files found in:" ++ nl ++ path_str (parse_path folder))] /\
     g' = g) /\
  (snd r <> [] ->
     fst (fst r) = [] /\
     (exists added, selected_files g' = selected_files g ++ added) /\
     (forall f, In f (selected_files g') <-> In f (selected_files g) \/ In f (snd r)) /\
     (NoDup (selected_files g) -> NoDup (selected_files g')) /\
     log_text g' = log_text g ++ [loaded_line folder (length (snd r))]).
Proof.
  cbv zeta; unfold load_files_from_folder; cbv zeta.
  destruct (flat_map _ supported_all) as [|p ps] eqn:Hf; cbn [fst snd].
  - split; [intros _; split; reflexivity|intro H; congruence].
  - split.
    + intro H; exfalso.
      assert (Hin : In (path_str p) (sort_strings (dedup (map path_str (p :: ps))))).
      { eapply Permutation_in; [symmetry; apply sort_strings_perm|].
        apply dedup_complete; left; reflexivity. }
      rewrite H in Hin; exact Hin.
    + intros _; cbn [selected_files log_text log set_selected].
      split; [reflexivity|split; [|split; [|split]]].
      * apply fold_append_new_prefix.
      * intro f; apply fold_append_new_In.
      * apply fold_append_new_NoDup.
      * reflexivity.
Qed.

(** Loading the same folder again finds the same files, shows no new dialog
    and leaves the selection as it was, but still logs another "Loaded" line
    with the full count, although no file was added. *)
Theorem load_folder_twice g folder entries :
  let r1 := load_files_from_folder g folder entries in
  let g1 := snd (fst r1) in
  let r2 := load_files_from_folder g1 folder entries in
  snd r2 = snd r1 /\
  fst (fst r2) = fst (fst r1) /\
  selected_files (snd (fst r2)) = selected_files g1 /\
  (snd r1 <> [] ->
     log_text (snd (fst r2)) = log_text g1 ++ [loaded_line folder (length (snd r1))]).
Proof.
  cbv zeta; unfold load_files_from_folder; cbv zeta.
  destruct (flat_map _ supported_all) as [|p ps] eqn:Hf; cbn [fst snd].
  - split; [reflexivity|split; [reflexivity|split; [reflexivity|intro H; congruence]]].
  - cbn [selected_files log_text log set_selected].
    split; [reflexivity|split; [reflexivity|split; [|intros _; reflexivity]]].
    apply fold_append_new_present.
    intros f Hf'; apply fold_append_new_In; right; exact Hf'.
Qed.

(** ** Removing a file *)

Lemma split_at_nth (l : list string) idx d :
  idx < length l -> l = firstn idx l ++ nth idx l d :: skipn (S idx) l.
Proof.
  revert l; induction idx as [|idx IH]; intros [|x l] H; simpl in *; try lia; [reflexivity|].
  f_equal; apply IH; lia.
Qed.

(** [remove_selected_file]: with nothing selected in the list box the GUI is
    unchanged; an index in range takes out exactly the file at that index
    (one file fewer, the others in order, and with no duplicates before the
    removed name is gone); an index out of range raises ([del] on a list). *)
Theorem remove_selected_file_spec g :
  remove_selected_file g [] = Some g /\
  (forall idx rest, idx < length (selected_files g) ->
     exists pre post,
       selected_files g = pre ++ nth idx (selected_files g) "" :: post /\
       length pre = idx /\
       remove_selected_file g (idx :: rest) = Some (set_selected g (pre ++ post)) /\
       (NoDup (selected_files g) ->
          NoDup (pre ++ post) /\ ~ In (nth idx (selected_files g) "") (pre ++ post))) /\
  (forall idx rest, length (selected_files g) <= idx -> remove_selected_file g (idx :: rest) = None).
Proof.
  split; [reflexivity|split].
  - intros idx rest H.
    exists (firstn idx (selected_files g)), (skipn (S idx) (selected_files g)).
    split; [apply split_at_nth; exact H|].
    split; [apply firstn_length_le; lia|].
    split; [unfold remove_selected_file; apply Nat.ltb_lt in H; rewrite H; reflexivity|].
    intro Hn; apply NoDup_remove; rewrite <- split_at_nth by exact H; exact Hn.
  - intros idx rest H; unfold remove_selected_file; cbv zeta.
    apply Nat.ltb_ge in H; rewrite H; reflexivity.
Qed.

(** ** The selection over a session *)

Lemma start_transcription_selected g st :
  selected_files (snd (start_transcription g st)) = selected_files g.
Proof.
  unfold start_transcription; destruct (selected_files g) as [|f fs] eqn:Hs;
    [exact Hs|cbv zeta].
  match goal with |- context [log_all ?g1 ?ms] =>
    destruct (log_all_fields g1 ms) as (F1 & _) end.
  cbn [snd selected_files]; rewrite F1; reflexivity.
Qed.

Lemma transcription_worker_selected g st running env :
  selected_files (snd (transcription_worker g st running env)) = selected_files g.
Proof.
  unfold transcription_worker; cbv zeta.
  destruct (transcribe_batch _ _ _ _ _ _ _) as [lines [rs ex]]; cbn [fst snd].
  destruct (log_all_fields (log_all g lines) (summary_lines rs)) as (F1 & _).
  destruct (log_all_fields g lines) as (G1 & _).
  destruct (Nat.eqb _ _); cbn [snd selected_files]; rewrite F1, G1; reflexivity.
Qed.

Lemma gui_step_NoDup g op g' :
  NoDup (selected_files g) -> gui_step g op = Some g' -> NoDup (selected_files g').
Proof.
  intros Hn Hs; destruct op as [files|folder entries|selection| |st|st running env];
    cbn [gui_step] in Hs.
  - injection Hs as <-; unfold select_files; destruct files; [exact Hn|].
    apply fold_append_new_NoDup, Hn.
  - injection Hs as <-; unfold load_files_from_folder; cbv zeta.
    destruct (flat_map _ supported_all); [exact Hn|].
    apply fold_append_new_NoDup, Hn.
  - unfold remove_selected_file in Hs; destruct selection as [|idx rest];
      [injection Hs as <-; exact Hn|cbv zeta in Hs].
    destruct (Nat.ltb idx (length (selected_files g))) eqn:E; [|discriminate].
    injection Hs as <-; apply Nat.ltb_lt in E; cbn [selected_files set_selected].
    apply (NoDup_remove _ _ (nth idx (selected_files g) "")).
    rewrite <- split_at_nth by exact E; exact Hn.
  - injection Hs as <-; constructor.
  - injection Hs as <-; rewrite start_transcription_selected; exact Hn.
  - injection Hs as <-; rewrite transcription_worker_selected; exact Hn.
Qed.

(** Over any sequence of the actions that touch it (picking files, loading
    folders, removing, clearing, starting a run, the worker finishing), the
    selection never holds the same path twice, starting from an empty or
    duplicate-free one. *)
Theorem gui_run_selection_NoDup g ops g' :
  NoDup (selected_files g) -> gui_run g ops = Some g' -> NoDup (selected_files g').
Proof.
  revert g; induction ops as [|op ops IH]; intros g Hn Hr; cbn [gui_run] in Hr.
  - injection Hr as <-; exact Hn.
  - destruct (gui_step g op) as [g1|] eqn:Hs; [|discriminate].
    exact (IH g1 (gui_step_NoDup g op g1 Hn Hs) Hr).
Qed.

(** ** Instances *)

Lemma worker_stopped_run_reports_success_witness :
  fst (transcription_worker example_gui example_settings (fun i => Nat.leb i 1) (example_env 0))
  = [ShowInfo "Success" ("All 1 file(s) transcribed!" ++ nl ++ nl
                          ++ "Output: " ++ path_str (parse_path "/out"))] /\
  In "✅ COMPLETE: 1/1 successful"
     (log_text (snd (transcription_worker example_gui example_settings (fun i => Nat.leb i 1)
                       (example_env 0)))).
Proof.
  exact (worker_stopped_run_reports_success example_gui example_settings (fun i => Nat.leb i 1)
           (example_env 0) "/in/a.mp4" "/in/b.mp4" ["/in/c.mp4"] [] eq_refl eq_refl eq_refl eq_refl).
Defined.

Lemma worker_stopped_before_first_file_witness :
  fst (transcription_worker example_gui example_settings (fun _ => false) (example_env 0))
  = [ShowInfo "Success" ("All 0 file(s) transcribed!" ++ nl ++ nl
                          ++ "Output: " ++ path_str (parse_path "/out"))].
Proof.
  exact (proj1 (worker_stopped_before_first_file example_gui example_settings (fun _ => false)
                  (example_env 0) ltac:(discriminate) eq_refl)).
Defined.

Lemma gui_run_selection_NoDup_witness :
  NoDup (selected_files
    (match gui_run (mkGui [] false [] "Ready" false)
             [OpSelectFiles ["/in/a.mp4"; "/in/b.mp4"; "/in/a.mp4"];
              OpLoadFolder "/in" ["a.mp4"; "c.wav"; "notes.txt"];
              OpRemove [1]] with
     | Some g => g | None => mkGui [] false [] "Ready" false end)).
Proof.
  apply (gui_run_selection_NoDup (mkGui [] false [] "Ready" false)
           [OpSelectFiles ["/in/a.mp4"; "/in/b.mp4"; "/in/a.mp4"];
            OpLoadFolder "/in" ["a.mp4"; "c.wav"; "notes.txt"];
            OpRemove [1]]).
  - constructor.
  - vm_compute; reflexivity.
Defined.
